(** * Courtbot SMS dialogue: a shallow embedding of [web.js]

    This development embeds the Express application of the courtbot
    repository (the file without a known name, [src/unnamed/part_001]):
    the [/sms] route, that is [questionAskedMiddleware] followed by the
    route handler, the handler's asynchronous database callbacks, the
    cookie session it reads and writes, the TwiML reply object it fills,
    and the [cleanupName] / moment formatting helpers it uses.

    Request bodies and database strings are modelled as Rocq [string]s
    whose characters are Latin-1 code units (one byte each).  The JS
    whitespace class and the [\w] class are written out on that range, and
    [toLowerCase] is the exact Unicode map restricted to Latin-1 (it never
    leaves Latin-1).  [toUpperCase] can leave Latin-1 (U+00DF sharp s
    becomes [SS], U+00B5 micro sign U+039C, U+00FF U+0178): its result is
    a list of UTF-16 code units, whose length is the JS [length]. *)

From Stdlib Require Import String Ascii List Bool Arith Lia ZArith NArith.
From Stdlib Require Import Permutation.
From Stdlib Require Import Numbers.DecimalString.
Import ListNotations.
Local Open Scope string_scope.
Local Open Scope nat_scope.

Module JsString.

(** JS [\s] (and the characters [String.prototype.trim] removes) on
    Latin-1: TAB, LF, VT, FF, CR, SPACE and NO-BREAK SPACE. *)
Definition is_space (c : ascii) : bool :=
  let n := nat_of_ascii c in
  ((9 <=? n) && (n <=? 13)) || (n =? 32) || (n =? 160).

(** JS [\w]: [A-Za-z0-9_]. *)
Definition is_word (c : ascii) : bool :=
  let n := nat_of_ascii c in
  ((48 <=? n) && (n <=? 57)) || ((65 <=? n) && (n <=? 90))
  || ((97 <=? n) && (n <=? 122)) || (n =? 95).

(** [toLowerCase] on one Latin-1 code unit: [A-Z] and U+00C0..U+00DE
    except U+00D7. *)
Definition char_toLowerCase (c : ascii) : ascii :=
  let n := nat_of_ascii c in
  if ((65 <=? n) && (n <=? 90)) || ((192 <=? n) && (n <=? 222) && negb (n =? 215))
  then ascii_of_nat (n + 32) else c.

(** [toUpperCase] on the Latin-1 code units whose upper case is one
    Latin-1 code unit: [a-z] and U+00E0..U+00FE except U+00F7; the other
    code units are left alone. *)
Definition char_toUpperCase (c : ascii) : ascii :=
  let n := nat_of_ascii c in
  if ((97 <=? n) && (n <=? 122)) || ((224 <=? n) && (n <=? 254) && negb (n =? 247))
  then ascii_of_nat (n - 32) else c.

(** A JS string value as its UTF-16 code units. *)
Definition jstring := list N.

(** A Latin-1 string as a JS string value. *)
Definition jstr (s : string) : jstring := map N_of_ascii (list_ascii_of_string s).

(** [===] on JS strings. *)
Fixpoint jstr_eqb (a b : jstring) : bool :=
  match a, b with
  | [], [] => true
  | x :: a', y :: b' => N.eqb x y && jstr_eqb a' b'
  | _, _ => false
  end.

(** The full upper-case mapping of one Latin-1 code unit (UnicodeData and
    SpecialCasing): U+00DF gives [SS], U+00B5 gives U+039C, U+00FF gives
    U+0178; the others as [char_toUpperCase]. *)
Definition char_upper_units (c : ascii) : jstring :=
  let n := nat_of_ascii c in
  if n =? 223 then [83%N; 83%N]
  else if n =? 181 then [924%N]
  else if n =? 255 then [376%N]
  else [N_of_ascii (char_toUpperCase c)].

(** [String.prototype.toUpperCase] on a Latin-1 string. *)
Fixpoint toUpperCase (s : string) : jstring :=
  match s with
  | EmptyString => []
  | String c s' => app (char_upper_units c) (toUpperCase s')
  end.

(** [String.prototype.trim]: drop leading, then trailing, whitespace. *)
Fixpoint drop_spaces (l : list ascii) : list ascii :=
  match l with
  | [] => []
  | c :: l' => if is_space c then drop_spaces l' else l
  end.

Definition trim_list (l : list ascii) : list ascii :=
  rev (drop_spaces (rev (drop_spaces l))).

Definition trim (s : string) : string :=
  string_of_list_ascii (trim_list (list_ascii_of_string s)).

End JsString.

Import JsString.

(** ** [cleanupName]

<<
var cleanupName = function(name) {
  name = name.trim();
  name = name.replace(/\w\S*/g, function(txt) {
    return txt.charAt(0).toUpperCase() + txt.substr(1).toLowerCase(); });
  return name;
};
>>
    The global replace scans left to right.  Outside a match ([inword =
    false]) a [\w] character starts a match and is upper-cased; inside a
    match ([inword = true]) the greedy [\S*] lower-cases every non-space
    character and the first whitespace character ends the match.  Names
    are Latin-1 strings here; outside Latin-1 [toLowerCase] can change the
    number of code units (U+0130 becomes two). *)
Fixpoint title_case (inword : bool) (l : list ascii) : list ascii :=
  match l with
  | [] => []
  | c :: l' =>
      if inword then
        if is_space c then c :: title_case false l'
        else char_toLowerCase c :: title_case true l'
      else if is_word c then char_toUpperCase c :: title_case true l'
      else c :: title_case false l'
  end.

Definition cleanupName (name : string) : string :=
  string_of_list_ascii (title_case false (list_ascii_of_string (trim name))).


(** ** moment formatting used by the case summary *)

(** A [date] column value as the server's local calendar date (the
    [pg] driver builds a local-midnight [Date] for it). *)
Record calendar_date := mkDate { year : Z; month : Z; day : Z }.

(** Days since 1970-01-01 of a proleptic Gregorian date. *)
Definition days_from_civil (d : calendar_date) : Z :=
  let y := (if (month d <=? 2)%Z then year d - 1 else year d)%Z in
  let era := (y / 400)%Z in
  let yoe := (y - era * 400)%Z in
  let mp := (if (month d >? 2)%Z then month d - 3 else month d + 9)%Z in
  let doy := ((153 * mp + 2) / 5 + day d - 1)%Z in
  let doe := (yoe * 365 + yoe / 4 - yoe / 100 + doy)%Z in
  (era * 146097 + doe - 719468)%Z.

(** 0 = Sunday, as [Date.prototype.getDay]; 1970-01-01 was a Thursday. *)
Definition weekday (d : calendar_date) : Z := ((days_from_civil d + 4) mod 7)%Z.

Definition weekdays_short : list string :=
  ["Sun"; "Mon"; "Tue"; "Wed"; "Thu"; "Fri"; "Sat"].
Definition months_short : list string :=
  ["Jan"; "Feb"; "Mar"; "Apr"; "May"; "Jun";
   "Jul"; "Aug"; "Sep"; "Oct"; "Nov"; "Dec"].

Definition string_of_nat (n : nat) : string :=
  NilZero.string_of_uint (Nat.to_uint n).

(** moment's English [Do]: [11th]-[13th] are special, then by last digit. *)
Definition ordinal (n : nat) : string :=
  let b := n mod 10 in
  string_of_nat n ++
  (if (n mod 100) / 10 =? 1 then "th"
   else if b =? 1 then "st" else if b =? 2 then "nd"
   else if b =? 3 then "rd" else "th").

(** [moment(match.date).format('ddd, MMM Do')] *)
Definition format_date (d : calendar_date) : string :=
  nth (Z.to_nat (weekday d)) weekdays_short "" ++ ", " ++
  nth (Z.to_nat (month d - 1)) months_short "" ++ " " ++
  ordinal (Z.to_nat (day d)).

Definition digit (c : ascii) : option nat :=
  let n := nat_of_ascii c in
  if (48 <=? n) && (n <=? 57) then Some (n - 48) else None.

Definition is_digit (c : ascii) : bool :=
  match digit c with Some _ => true | None => false end.

Definition two_digits (a b : ascii) : option nat :=
  match digit a, digit b with
  | Some x, Some y => Some (10 * x + y)
  | _, _ => None
  end.

Definition is_colon (c : ascii) : bool := Ascii.eqb c ":".

(** What moment relies on outside its own code.  [date_fallback] is the
    [Date] the JS engine builds from a string that is not ISO 8601 (moment
    then calls [new Date(string)]), as its local hour and minute, [None]
    for an invalid [Date]: ECMAScript leaves that parse to the
    implementation.  [utc_offset] is the offset from UTC of the server's
    time zone on 1980-01-01, in minutes (the zone is assumed to have no
    transition on that day). *)
Record moment_env := mkMomentEnv {
  utc_offset : Z;
  date_fallback : string -> option (nat * nat) }.

(** The longest prefix of digits, and the rest. *)
Fixpoint split_digits (l : list ascii) : list ascii * list ascii :=
  match l with
  | c :: l' =>
      if is_digit c then let (d, r) := split_digits l' in (c :: d, r) else ([], l)
  | [] => ([], [])
  end.

(** The zone of an ISO string: none (local time), or an offset in minutes
    east of UTC. *)
Inductive iso_zone := ZoneLocal | ZoneOffset (minutes : Z).

(** The zone group [([+-]\d\d(?::?\d\d)?|\s*Z)?] of moment's ISO pattern,
    up to the end of the string; the offset as moment's [offsetFromString]
    reads it. *)
Definition parse_zone (l : list ascii) : option iso_zone :=
  match l with
  | [] => Some ZoneLocal
  | c :: r =>
      let sign := if Ascii.eqb c "+" then Some 1%Z
                  else if Ascii.eqb c "-" then Some (-1)%Z else None in
      match sign with
      | Some k =>
          let off h m := Some (ZoneOffset (k * Z.of_nat (60 * h + m))%Z) in
          match r with
          | [a; b] =>
              match two_digits a b with Some h => off h 0 | None => None end
          | [a; b; m1; m2] =>
              match two_digits a b, two_digits m1 m2 with
              | Some h, Some m => off h m
              | _, _ => None
              end
          | [a; b; c1; m1; m2] =>
              if is_colon c1 then
                match two_digits a b, two_digits m1 m2 with
                | Some h, Some m => off h m
                | _, _ => None
                end
              else None
          | _ => None
          end
      | None => match drop_spaces l with ["Z"%char] => Some (ZoneOffset 0) | _ => None end
      end
  end.

(** The fields moment reads from an ISO time: hours, minutes, seconds,
    whether the milliseconds are 0, and the zone. *)
Record iso_time := mkIsoTime {
  iso_h : nat; iso_m : nat; iso_s : nat; iso_ms_zero : bool; iso_zone_of : iso_zone }.

Definition with_zone (h m s : nat) (l : list ascii) : option iso_time :=
  option_map (fun z => mkIsoTime h m s true z) (parse_zone l).

(** The fraction [[.,]\d+] after the seconds, then the zone.  moment reads
    the milliseconds as [toInt(('0.' + digits) * 1000)]: they are 0 when
    the first three digits are (exact for fractions of up to 15 digits;
    the [pg] driver gives at most 6). *)
Definition with_fraction (h m s : nat) (l : list ascii) : option iso_time :=
  match l with
  | c :: l' =>
      if Ascii.eqb c "." || Ascii.eqb c "," then
        let (ds, r) := split_digits l' in
        match ds with
        | [] => None
        | _ :: _ =>
            option_map (fun z => mkIsoTime h m s (forallb (fun d => Ascii.eqb d "0") (firstn 3 ds)) z)
              (parse_zone r)
        end
      else with_zone h m s l
  | [] => with_zone h m s l
  end.

(** The time part of moment's ISO 8601 pattern after the date
    ["1980-01-01"] and the separator [ ]:
    [\d\d(?::\d\d(?::\d\d(?:[.,]\d+)?)?)?] followed by the zone.  The
    optional groups are taken greedily: the zone never starts with a
    colon, a digit, [.] or [,], so no other split matches. *)
Definition parse_iso_time (l : list ascii) : option iso_time :=
  match l with
  | h1 :: h2 :: r =>
      match two_digits h1 h2 with
      | None => None
      | Some h =>
          match r with
          | c1 :: m1 :: m2 :: r1 =>
              match (if is_colon c1 then two_digits m1 m2 else None) with
              | Some m =>
                  match r1 with
                  | c2 :: s1 :: s2 :: r2 =>
                      match (if is_colon c2 then two_digits s1 s2 else None) with
                      | Some s => with_fraction h m s r2
                      | None => with_zone h m 0 r1
                      end
                  | _ => with_zone h m 0 r1
                  end
              | None => with_zone h 0 0 r
              end
          | _ => with_zone h 0 0 r
          end
      end
  | _ => None
  end.

(** moment's overflow check on the parsed fields: hour 24 only as
    24:00:00.000 (midnight of the next day). *)
Definition iso_valid (p : iso_time) : bool :=
  ((iso_h p <=? 23) && (iso_m p <=? 59) && (iso_s p <=? 59))
  || ((iso_h p =? 24) && (iso_m p =? 0) && (iso_s p =? 0) && iso_ms_zero p).

(** The local clock time of the parsed instant, in minutes after
    midnight; a time with a zone is converted to the server's zone. *)
Definition iso_local_minutes (env : moment_env) (p : iso_time) : nat :=
  let t := Z.of_nat (60 * iso_h p + iso_m p) in
  Z.to_nat ((match iso_zone_of p with
             | ZoneLocal => t
             | ZoneOffset o => t - o + utc_offset env
             end) mod 1440)%Z.

(** [moment("1980-01-01 " + time)] as a local hour and minute: an ISO
    string is read by moment itself ([Invalid date] when a field
    overflows); any other string goes to [new Date]. *)
Definition moment_clock (env : moment_env) (t : string) : option (nat * nat) :=
  match parse_iso_time (list_ascii_of_string t) with
  | Some p =>
      if iso_valid p then
        let n := iso_local_minutes env p in Some (n / 60, n mod 60)
      else None
  | None => date_fallback env ("1980-01-01 " ++ t)
  end.

(** [moment("1980-01-01 " + match.time).format("h:mm A")] *)
Definition format_time (env : moment_env) (t : string) : string :=
  match moment_clock env t with
  | Some (h, m) =>
      let h12 := if h mod 12 =? 0 then 12 else h mod 12 in
      string_of_nat h12 ++ ":" ++ (if m <? 10 then "0" else "") ++ string_of_nat m
      ++ (if h <? 12 then " AM" else " PM")
  | None => "Invalid date"
  end.


(** ** Data handled by the [/sms] route *)

(** A row of the [cases] lookup ([db.findCitation]). *)
Record case_rec := mkCase {
  id : string; citation : string; defendant : string;
  date : calendar_date; time : string; room : string }.

(** A row of the [queued] table returned by [db.findAskedQueued]. *)
Record queue_row := mkQueueRow { q_id : string; q_citation_id : string; q_phone : string }.

(** [req.session], a cookie session; absent fields read as [undefined]. *)
Record session := mkSession {
  askedReminder : bool; askedQueued : bool;
  citationId : option jstring; match_ : option case_rec }.

Definition empty_session : session := mkSession false false None None.

(** What [handleReminderResponse] receives as [match]: the case kept in
    the session, or a queued row. *)
Inductive reminder_src := SrcCase (c : case_rec) | SrcQueue (r : queue_row).

Definition src_id (m : reminder_src) : string :=
  match m with SrcCase c => id c | SrcQueue r => q_id r end.

(** Argument of [db.addReminder]; [originalCase] is [JSON.stringify(match)]. *)
Record reminder := mkReminder { caseId : string; phone : string; originalCase : reminder_src }.

(** Argument of [db.addQueued]. *)
Record queued_req := mkQueuedReq { q_citationId : option jstring; q_from : string }.

Inductive db_write := WAddReminder (r : reminder) | WAddQueued (q : queued_req).

Inductive db_result (A : Type) := DbErr | DbOk (a : A).
Arguments DbErr {A}.
Arguments DbOk {A} a.

(** The database module as the route sees it.  [findCitation] gives the
    [results] of the callback ([None] when they are undefined); the
    [addQueued] insert may report an error. *)
Record store := mkStore {
  findCitation : jstring -> option (list case_rec);
  findAskedQueued : string -> db_result (list queue_row);
  addQueued_fails : queued_req -> bool }.

(** [process.env] values embedded in replies, and the environment moment
    runs in. *)
Record config := mkConfig {
  COURT_PUBLIC_URL : string; QUEUE_TTL_DAYS : string; server_clock : moment_env }.

(** A call to [res.send]: the TwiML messages, or the 500 page of the error
    middleware. *)
Inductive reply := Twiml (msgs : list string) | ServerError.

(** A database call issued during the synchronous run whose callback has
    not run yet. *)
Inductive op := FindAskedQueued | AddQueued (q : queued_req) | FindCitation.

(** One request: the session object, the shared [twiml] object, every
    [res.send] call made, the session as it was when the headers went out
    (cookie-session writes the cookie then), the writes issued and the
    callbacks still to run. *)
Record world := mkWorld {
  sess : session; twiml : list string; sent : list reply;
  snap : option session; writes : list db_write; pending : list op }.

Definition init_world (s : session) : world := mkWorld s [] [] None [] [].

Definition set_sess (f : session -> session) (w : world) : world :=
  mkWorld (f (sess w)) (twiml w) (sent w) (snap w) (writes w) (pending w).

(** [twiml.sms(m)] *)
Definition sms (m : string) (w : world) : world :=
  mkWorld (sess w) (app (twiml w) [m]) (sent w) (snap w) (writes w) (pending w).

Definition add_write (x : db_write) (w : world) : world :=
  mkWorld (sess w) (twiml w) (sent w) (snap w) (app (writes w) [x]) (pending w).

Definition add_pending (o : op) (w : world) : world :=
  mkWorld (sess w) (twiml w) (sent w) (snap w) (writes w) (app (pending w) [o]).

Definition send_reply (r : reply) (w : world) : world :=
  mkWorld (sess w) (twiml w) (app (sent w) [r])
    (match snap w with Some s => Some s | None => Some (sess w) end)
    (writes w) (pending w).

(** [res.send(twiml.toString())] *)
Definition res_send (w : world) : world := send_reply (Twiml (twiml w)) w.

(** [next(err)]: the error middleware answers 500 unless headers were sent. *)
Definition next_err (w : world) : world :=
  match sent w with [] => send_reply ServerError w | _ :: _ => w end.

Definition set_askedReminder (b : bool) (s : session) : session :=
  mkSession b (askedQueued s) (citationId s) (match_ s).
Definition set_askedQueued (b : bool) (s : session) : session :=
  mkSession (askedReminder s) b (citationId s) (match_ s).
Definition set_citationId (c : option jstring) (s : session) : session :=
  mkSession (askedReminder s) (askedQueued s) c (match_ s).
Definition set_match (m : option case_rec) (s : session) : session :=
  mkSession (askedReminder s) (askedQueued s) (citationId s) m.

(** The session the client holds after the request. *)
Definition next_session (s : session) (w : world) : session :=
  match snap w with Some s' => s' | None => s end.

(** ** The [/sms] route handler *)

Definition is_yes (text : jstring) : bool :=
  jstr_eqb text (jstr "YES") || jstr_eqb text (jstr "YEA") ||
  jstr_eqb text (jstr "YUP") || jstr_eqb text (jstr "Y").

Definition is_no (text : jstring) : bool :=
  jstr_eqb text (jstr "NO") || jstr_eqb text (jstr "N").

Definition msg_reminder_1 : string :=
  "(1/2) Sounds good. We will attempt to text you a courtesy reminder the day before your case. Note that case schedules frequently change.".
Definition msg_reminder_2 (cfg : config) : string :=
  "(2/2) You should always confirm your case date and time by going to " ++ COURT_PUBLIC_URL cfg.
Definition msg_opt_out (cfg : config) : string :=
  "OK. You can always go to " ++ COURT_PUBLIC_URL cfg ++
  " for more information about your case and contact information.".
Definition msg_keep_checking (cfg : config) : string :=
  "OK. We will keep checking for up to " ++ QUEUE_TTL_DAYS cfg ++
  " days. You can always go to " ++ COURT_PUBLIC_URL cfg ++
  " for more information about your case and contact information.".
Definition msg_not_found_1 : string :=
  "(1/2) Could not find a case with that number. It can take several days for a case to appear in our system.".
Definition msg_not_found_2 (cfg : config) : string :=
  "(2/2) Would you like us to keep checking for the next " ++ QUEUE_TTL_DAYS cfg ++
  " days and text you if we find it? (reply YES or NO)".
Definition msg_bad_format : string :=
  "Couldn't find your case. Case identifier should be 6 to 25 numbers and/or letters in length.".

Definition case_summary (cfg : config) (c : case_rec) : string :=
  "Found a case for " ++ cleanupName (defendant c) ++ " scheduled on " ++
  format_date (date c) ++ " at " ++ format_time (server_clock cfg) (time c) ++ ", at " ++
  room c ++ ". Would you like a courtesy reminder the day before? (reply YES or NO)".

Section Handler.

Variable cfg : config.
Variable db : store.
(** [req.body.From] and [text = req.body.Body.toUpperCase()]. *)
Variable From : string.
Variable text : jstring.

(** [handleReminderResponse(match)]; [None] is the [TypeError] of
    [match.id] when [match] is [undefined]. *)
Definition handleReminderResponse (m : option reminder_src) (w : world) : option world :=
  if is_yes text then
    match m with
    | None => None
    | Some src =>
        Some (res_send (set_sess (set_askedReminder false)
          (sms (msg_reminder_2 cfg) (sms msg_reminder_1
            (add_write (WAddReminder (mkReminder (src_id src) From src)) w)))))
    end
  else if is_no text then
    Some (res_send (set_sess (set_askedReminder false) (sms (msg_opt_out cfg) w)))
  else Some w.

(** The synchronous run of the route handler, up to the point where it
    returns to the event loop.  A synchronous throw reaches the error
    middleware through Express's router. *)
Definition sms_sync (s : session) : world :=
  let w0 := init_world s in
  match (if askedReminder s
         then handleReminderResponse (option_map SrcCase (match_ s)) w0
         else Some (add_pending FindAskedQueued w0)) with
  | None => next_err w0
  | Some w1 =>
      if askedQueued (sess w1) then
        if is_yes text then
          let q := mkQueuedReq (citationId (sess w1)) From in
          add_pending FindCitation (add_pending (AddQueued q) (add_write (WAddQueued q) w1))
        else if is_no text then
          res_send (set_sess (set_askedQueued false) (sms (msg_opt_out cfg) w1))
        else add_pending FindCitation w1
      else add_pending FindCitation w1
  end.

(** The database callbacks. *)
Definition run_op (o : op) (w : world) : world :=
  match o with
  | FindAskedQueued =>
      match findAskedQueued db From with
      | DbErr => next_err w
      | DbOk [r] =>
          match handleReminderResponse (Some (SrcQueue r)) w with
          | Some w' => w'
          | None => w
          end
      | DbOk _ => w
      end
  | AddQueued q =>
      let w1 := if addQueued_fails db q then next_err w else w in
      res_send (set_sess (set_askedQueued false) (sms (msg_keep_checking cfg) w1))
  | FindCitation =>
      match findCitation db text with
      | Some [c] =>
          res_send (set_sess (fun s => set_askedReminder true (set_match (Some c) s))
            (sms (case_summary cfg c) w))
      | _ =>
          if (6 <=? length text) && (length text <=? 25) then
            res_send (set_sess (fun s => set_citationId (Some text) (set_askedQueued true s))
              (sms (msg_not_found_2 cfg) (sms msg_not_found_1 w)))
          else res_send (sms msg_bad_format w)
      end
  end.

(** The callbacks run in the order the database answers. *)
Definition run_ops (order : list op) (w : world) : world :=
  fold_left (fun w o => run_op o w) order w.

End Handler.

(** The route handler on a whole request: [order] is the order in which
    the pending callbacks complete, a permutation of
    [pending (sms_sync ...)]. *)
Definition sms_handler (cfg : config) (db : store) (From Body : string)
    (s : session) (order : list op) : world :=
  let text := toUpperCase Body in
  run_ops cfg db From text order (sms_sync cfg From text s).

(** ** [questionAskedMiddleware] and the [/sms] route

<<
function questionAskedMiddleware(req, res, next) {
  db.findAskedQueued(req.body.From, function(data) {
    console.log("..." + JSON.stringify(data) + "data.length: " + data.length);
    if (data.length == 1) {
      var match = data[0];
      console.log("Handling reminder response");
      handleReminderResponse(match);
    }
  });
}
>> *)

(** The JS values the middleware's callback handles. *)
Inductive js_value :=
  | JsNull | JsUndefined | JsNumber (n : nat)
  | JsArray (rows : list queue_row) | JsErrorObject.

(** The arguments [db.findAskedQueued] passes to its callback: the
    [(err, data)] convention the route handler's own call of it relies on
    ([if (err) return next(err); ... data.length]). *)
Definition findAskedQueued_args (r : db_result (list queue_row)) : list js_value :=
  match r with
  | DbErr => [JsErrorObject]
  | DbOk rows => [JsNull; JsArray rows]
  end.

(** How a JS function body ends. *)
Inductive js_completion := Normal | ThrowTypeError | ThrowReferenceError.

(** The property read [v.length]: [None] is the [TypeError] on [null]
    and [undefined]; objects without the property give [undefined]. *)
Definition get_length (v : js_value) : option js_value :=
  match v with
  | JsNull | JsUndefined => None
  | JsArray rows => Some (JsNumber (length rows))
  | JsNumber _ | JsErrorObject => Some JsUndefined
  end.

(** The callback [function(data) {...}] on the arguments it is called
    with: [data] is the first one.  The log line reads [data.length]; the
    test is [data.length == 1]; the call [handleReminderResponse(match)]
    names a function declared inside the route handler, which is not in
    scope here. *)
Definition questionAskedMiddleware_callback (args : list js_value) : js_completion :=
  let data := match args with v :: _ => v | [] => JsUndefined end in
  match get_length data with
  | None => ThrowTypeError
  | Some (JsNumber 1) => ThrowReferenceError
  | Some _ => Normal
  end.

(** One run of the middleware: its body issues the lookup and returns.  No
    statement of it calls [next] or uses [res]. *)
Record middleware_run := mkMiddlewareRun {
  mw_calls_next : bool; mw_callback : js_completion }.

Definition questionAskedMiddleware (db : store) (From : string) : middleware_run :=
  mkMiddlewareRun false
    (questionAskedMiddleware_callback (findAskedQueued_args (findAskedQueued db From))).

(** [app.post('/sms', questionAskedMiddleware, handler)]: Express runs the
    handler only when the middleware calls [next].  Otherwise the response
    stays open: nothing is sent, and cookie-session, which writes the
    cookie with the response headers, leaves the client's session as it
    was.  The result is the request's world and how the middleware's
    callback ends (an exception thrown there is outside the Express
    router, so no error middleware answers it). *)
Definition sms_route (cfg : config) (db : store) (From Body : string)
    (s : session) (order : list op) : world * js_completion :=
  let mw := questionAskedMiddleware db From in
  (if mw_calls_next mw then sms_handler cfg db From Body s order else init_world s,
   mw_callback mw).

(** ** Predicates used in the statements *)

(** [results] hold exactly one record: the [else] branch of the
    [findCitation] callback. *)
Definition unique_match (r : option (list case_rec)) : option case_rec :=
  match r with Some [c] => Some c | _ => None end.

Definition is_reminder_write (x : db_write) : bool :=
  match x with WAddReminder _ => true | WAddQueued _ => false end.

Definition count_reminders (l : list db_write) : nat :=
  length (filter is_reminder_write l).

(** The store with the exact-match lookup of [q] answering [r]. *)
Definition with_citation (db : store) (q : jstring) (r : option (list case_rec)) : store :=
  mkStore (fun q' => if jstr_eqb q' q then r else findCitation db q')
    (findAskedQueued db) (addQueued_fails db).

(** The store whose citation lookup answers every key as [db] answers [q]. *)
Definition lookup_only (db : store) (q : jstring) : store :=
  mkStore (fun _ => findCitation db q) (findAskedQueued db) (addQueued_fails db).

(** The [[6,25]] length window of the not-found branch. *)
Definition in_window (t : jstring) : Prop := 6 <= length t <= 25.

(** A message checked against the window for the query [t]: the queue
    offer only inside it, the format error only outside it. *)
Definition msg_checked (t : jstring) (m : string) : Prop :=
  (m = msg_not_found_1 -> in_window t) /\ (m = msg_bad_format -> ~ in_window t).

Definition reply_checked (t : jstring) (r : reply) : Prop :=
  match r with Twiml msgs => Forall (msg_checked t) msgs | ServerError => True end.

(** What a session may hold about the query [t], compared with the
    session [s0] the request started from: the citation only when [t] is
    in the window and has no unique match, the case only when it is the
    unique record found for [t]. *)
Definition stores_query (db : store) (t : jstring) (s0 s : session) : Prop :=
  (citationId s = citationId s0 \/
   (citationId s = Some t /\ in_window t /\ unique_match (findCitation db t) = None)) /\
  (match_ s = match_ s0 \/
   exists c, match_ s = Some c /\ unique_match (findCitation db t) = Some c).

Definition query_inv (db : store) (t : jstring) (s0 : session) (w : world) : Prop :=
  stores_query db t s0 (sess w) /\
  (forall x, snap w = Some x -> stores_query db t s0 x) /\
  Forall (msg_checked t) (twiml w) /\
  Forall (reply_checked t) (sent w).

(** ** Properties the code keeps across a request *)

(** The pairing of the session flags with their data: the reminder
    question is only asked with a stored case, the queue question only
    with a stored citation. *)
Definition session_wf (s : session) : Prop :=
  (askedReminder s = true -> match_ s <> None) /\
  (askedQueued s = true -> citationId s <> None).

(** The current session and the one written to the cookie are both
    well formed. *)
Definition world_wf (w : world) : Prop :=
  session_wf (sess w) /\ (forall x, snap w = Some x -> session_wf x).

(** What justifies each insert of a request, read off the three places
    that write: [handleReminderResponse] on the session's case, the same
    on the single asked row, and [db.addQueued] in the queue branch. *)
Definition write_allowed (db : store) (From : string) (text : jstring) (s : session)
    (x : db_write) : Prop :=
  is_yes text = true /\
  match x with
  | WAddReminder r =>
      match originalCase r with
      | SrcCase c => askedReminder s = true /\ match_ s = Some c /\ r = mkReminder (id c) From (SrcCase c)
      | SrcQueue row => findAskedQueued db From = DbOk [row] /\ r = mkReminder (q_id row) From (SrcQueue row)
      end
  | WAddQueued q => askedQueued s = true /\ q = mkQueuedReq (citationId s) From
  end.

Definition is_queued_write (x : db_write) : bool :=
  match x with WAddReminder _ => false | WAddQueued _ => true end.

Definition count_queued (l : list db_write) : nat :=
  length (filter is_queued_write l).

Definition is_faq (o : op) : bool :=
  match o with FindAskedQueued => true | _ => false end.

(** No 500 page after the first reply: [ServerError] can only head the
    list of send attempts. *)
Definition error_only_first (l : list reply) : Prop :=
  Forall (fun r => r <> ServerError) (tl l).

(** A later TwiML reply repeats the messages of an earlier one: the
    handler fills one [twiml] object for the whole request. *)
Definition reply_extends (r1 r2 : reply) : Prop :=
  match r1, r2 with
  | Twiml a, Twiml b => exists e, b = app a e
  | _, _ => True
  end.

Definition starts_nonspace (l : list ascii) : bool :=
  match l with [] => true | c :: _ => negb (is_space c) end.

Definition replies_chained (w : world) : Prop :=
  ForallOrdPairs reply_extends (sent w) /\
  Forall (fun r => reply_extends r (Twiml (twiml w))) (sent w).

(** ** Sample inputs *)

(** The server in Asheville (UTC-5 on 1980-01-01); its [Date] fallback
    is left unspecified here: it parses nothing. *)
Definition sample_clock : moment_env := mkMomentEnv (-300) (fun _ => None).
Definition sample_cfg : config := mkConfig "https://court.example" "14" sample_clock.
Definition sample_phone : string := "+15550001111".
Definition sample_case : case_rec :=
  mkCase "1" "Z-9" "john q public" (mkDate 2024 3 4) "14:30" "101".
Definition sample_row : queue_row := mkQueueRow "7" "ABC123" sample_phone.

(** Nothing is found and no queue question was asked. *)
Definition store_empty : store := mkStore (fun _ => Some []) (fun _ => DbOk []) (fun _ => false).
(** The asked-queue lookup fails. *)
Definition store_queue_down : store :=
  mkStore (fun q => if jstr_eqb q (jstr "Z-9") then Some [sample_case] else Some [])
    (fun _ => DbErr) (fun _ => false).
(** [Z-9] is a unique match. *)
Definition store_z9 : store :=
  mkStore (fun q => if jstr_eqb q (jstr "Z-9") then Some [sample_case] else Some [])
    (fun _ => DbOk []) (fun _ => false).
(** One asked queued row is stored for the sample sender. *)
Definition store_asked_row : store :=
  mkStore (fun _ => Some []) (fun _ => DbOk [sample_row]) (fun _ => false).

Definition reminder_session : session := mkSession true false None (Some sample_case).
Definition queue_session : session := mkSession false true (Some (jstr "ABC123")) None.
(** Both questions pending, as left by a not-found text sent while the
    reminder question was open. *)
Definition both_questions_session : session :=
  mkSession true true (Some (jstr "ABC123")) (Some sample_case).

(** * Properties *)

(** ** Examples *)
Example format_time_ex2 env : format_time env "00:30" = "12:30 AM".
Proof. reflexivity. Qed.
Example format_date_ex2 : format_date (mkDate 2023 12 12) = "Tue, Dec 12th".
Proof. reflexivity. Qed.
Example cleanupName_ex1 : cleanupName "  JOHN q. o'BRIEN-smith " = "John Q. O'brien-smith".
Proof. reflexivity. Qed.
Example format_date_ex : format_date (mkDate 2024 3 4) = "Mon, Mar 4th".
Proof. reflexivity. Qed.
Example format_time_ex env : format_time env "09:05:00" = "9:05 AM".
Proof. reflexivity. Qed.
Example format_time_fraction env : format_time env "14:30:00.000" = "2:30 PM".
Proof. reflexivity. Qed.
Example format_time_hour_24 env :
  format_time env "24:00:00.000" = "12:00 AM" /\ format_time env "24:00:00.5" = "Invalid date".
Proof. split; reflexivity. Qed.
Example format_time_offset : format_time sample_clock "14:30:00+02" = "7:30 AM".
Proof. reflexivity. Qed.
Example format_time_not_iso env : moment_clock env "9:05" = date_fallback env "1980-01-01 9:05".
Proof. reflexivity. Qed.
Example toUpperCase_length :
  toUpperCase (String (ascii_of_nat 223) (String (ascii_of_nat 255) (String "a" EmptyString)))
  = [83%N; 83%N; 376%N; 65%N].
Proof. reflexivity. Qed.

(** ** Character facts, checked over all 256 code units *)

Ltac all_code_units :=
  match goal with c : ascii |- _ => destruct c as [[] [] [] [] [] [] [] []] end; reflexivity.

Lemma is_space_toLowerCase c : is_space (char_toLowerCase c) = is_space c.
Proof. all_code_units. Qed.

Lemma is_space_toUpperCase c : is_space (char_toUpperCase c) = is_space c.
Proof. all_code_units. Qed.

Lemma is_word_toUpperCase c : is_word (char_toUpperCase c) = is_word c.
Proof. all_code_units. Qed.

Lemma toLowerCase_idem c : char_toLowerCase (char_toLowerCase c) = char_toLowerCase c.
Proof. all_code_units. Qed.

Lemma toUpperCase_idem c : char_toUpperCase (char_toUpperCase c) = char_toUpperCase c.
Proof. all_code_units. Qed.

(** ** The replace pass of [cleanupName] *)

Lemma title_case_idem m l : title_case m (title_case m l) = title_case m l.
Proof.
  revert m; induction l as [|c l IH]; intros [|]; simpl; try reflexivity.
  - destruct (is_space c) eqn:Hs; simpl.
    + rewrite Hs, IH; reflexivity.
    + rewrite is_space_toLowerCase, Hs, toLowerCase_idem, IH; reflexivity.
  - destruct (is_word c) eqn:Hw; simpl.
    + rewrite is_word_toUpperCase, Hw, toUpperCase_idem, IH; reflexivity.
    + rewrite Hw, IH; reflexivity.
Qed.

Lemma title_case_spaces m l : map is_space (title_case m l) = map is_space l.
Proof.
  revert m; induction l as [|c l IH]; intros [|]; simpl; try reflexivity.
  - destruct (is_space c) eqn:Hs; simpl.
    + rewrite Hs, IH; reflexivity.
    + rewrite is_space_toLowerCase, Hs, IH; reflexivity.
  - destruct (is_word c); simpl.
    + rewrite is_space_toUpperCase, IH; reflexivity.
    + rewrite IH; reflexivity.
Qed.

(** ** [trim] *)

Lemma drop_spaces_starts l : starts_nonspace (drop_spaces l) = true.
Proof.
  induction l as [|c l IH]; simpl; [reflexivity|].
  destruct (is_space c) eqn:Hs; simpl; [exact IH|].
  rewrite Hs; reflexivity.
Qed.

Lemma drop_spaces_id l : starts_nonspace l = true -> drop_spaces l = l.
Proof.
  destruct l as [|c l]; simpl; [reflexivity|].
  destruct (is_space c); simpl; [discriminate|reflexivity].
Qed.

Lemma drop_spaces_idem l : drop_spaces (drop_spaces l) = drop_spaces l.
Proof. apply drop_spaces_id, drop_spaces_starts. Qed.

Lemma starts_nonspace_spaces l1 l2 :
  map is_space l1 = map is_space l2 -> starts_nonspace l1 = starts_nonspace l2.
Proof.
  destruct l1 as [|c1 l1], l2 as [|c2 l2]; simpl; try discriminate; [reflexivity|].
  intros H; injection H as Hc _; rewrite Hc; reflexivity.
Qed.

Lemma drop_spaces_snoc l c :
  is_space c = false -> drop_spaces (app l [c]) = app (drop_spaces l) [c].
Proof.
  intros Hc; induction l as [|x l IH]; simpl.
  - rewrite Hc; reflexivity.
  - destruct (is_space x); [exact IH|reflexivity].
Qed.

Lemma trim_list_starts l : starts_nonspace (trim_list l) = true.
Proof.
  unfold trim_list.
  pose proof (drop_spaces_starts l) as Hu.
  destruct (drop_spaces l) as [|c u] eqn:E; [reflexivity|].
  simpl in Hu |- *.
  rewrite drop_spaces_snoc by (destruct (is_space c); [discriminate|reflexivity]).
  rewrite rev_app_distr; simpl; exact Hu.
Qed.

Lemma trim_list_ends l : starts_nonspace (rev (trim_list l)) = true.
Proof. unfold trim_list; rewrite rev_involutive; apply drop_spaces_starts. Qed.

Lemma trim_list_id l :
  starts_nonspace l = true -> starts_nonspace (rev l) = true -> trim_list l = l.
Proof.
  intros H1 H2; unfold trim_list.
  rewrite (drop_spaces_id l H1), (drop_spaces_id (rev l) H2); apply rev_involutive.
Qed.

Lemma trim_title_case l :
  trim_list (title_case false (trim_list l)) = title_case false (trim_list l).
Proof.
  apply trim_list_id.
  - rewrite (starts_nonspace_spaces _ (trim_list l)) by apply title_case_spaces.
    apply trim_list_starts.
  - rewrite (starts_nonspace_spaces _ (rev (trim_list l))).
    + apply trim_list_ends.
    + rewrite !map_rev, title_case_spaces; reflexivity.
Qed.

(** C10: [cleanupName] is idempotent. *)
Theorem cleanupName_idempotent (s : string) :
  cleanupName (cleanupName s) = cleanupName s.
Proof.
  unfold cleanupName, trim.
  rewrite !list_ascii_of_string_of_list_ascii, trim_title_case, title_case_idem.
  reflexivity.
Qed.

(** ** JS string equality *)

Lemma jstr_eqb_eq a b : jstr_eqb a b = true <-> a = b.
Proof.
  revert b; induction a as [|x a IH]; intros [|y b]; simpl; try (split; congruence).
  rewrite andb_true_iff, N.eqb_eq, IH.
  split; [intros [-> ->]; reflexivity | intros H; injection H as -> ->; split; reflexivity].
Qed.

Lemma jstr_eqb_refl a : jstr_eqb a a = true.
Proof. apply jstr_eqb_eq; reflexivity. Qed.

(** ** Ambiguous and missing records *)

Lemma run_op_ambiguous cfg db From text cs o w :
  2 <= length cs ->
  run_op cfg (with_citation db text (Some cs)) From text o w =
  run_op cfg (with_citation db text (Some [])) From text o w.
Proof.
  intros Hc; destruct o; try reflexivity.
  unfold run_op; cbn [findCitation with_citation]; rewrite jstr_eqb_refl.
  destruct cs as [|c1 [|c2 l]]; simpl in Hc; [lia | lia | reflexivity].
Qed.

(** C7: a lookup that finds several records gives the same request
    outcome (replies, session, writes) as one that finds none. *)
Theorem ambiguous_same_as_missing cfg db From Body s order cs :
  2 <= length cs ->
  sms_handler cfg (with_citation db (toUpperCase Body) (Some cs)) From Body s order =
  sms_handler cfg (with_citation db (toUpperCase Body) (Some [])) From Body s order.
Proof.
  intros Hc; unfold sms_handler, run_ops.
  generalize (sms_sync cfg From (toUpperCase Body) s) as w.
  induction order as [|o order IH]; intros w; simpl; [reflexivity|].
  rewrite run_op_ambiguous by exact Hc; apply IH.
Qed.

(** ** [next(err)] *)

Lemma snap_next_err w x : snap w = Some x -> snap (next_err w) = Some x.
Proof. intros H; unfold next_err; destruct (sent w); simpl; rewrite H; reflexivity. Qed.

Lemma writes_next_err w : writes (next_err w) = writes w.
Proof. unfold next_err; destruct (sent w); reflexivity. Qed.


(** * Further properties of the handler *)

(** ** The session updates keep the flags paired with their data *)

Lemma session_wf_askedReminder_false s :
  session_wf s -> session_wf (set_askedReminder false s).
Proof. intros [H1 H2]; split; cbn; [intros H; discriminate H | exact H2]. Qed.

Lemma session_wf_askedQueued_false s :
  session_wf s -> session_wf (set_askedQueued false s).
Proof. intros [H1 H2]; split; cbn; [exact H1 | intros H; discriminate H]. Qed.

Lemma session_wf_found c s :
  session_wf s -> session_wf (set_askedReminder true (set_match (Some c) s)).
Proof. intros [H1 H2]; split; cbn; [intros _; discriminate | exact H2]. Qed.

Lemma session_wf_offer t s :
  session_wf s -> session_wf (set_citationId (Some t) (set_askedQueued true s)).
Proof. intros [H1 H2]; split; cbn; [exact H1 | intros _; discriminate]. Qed.

(** ** Invariants of a whole request

    Every step of the handler is one of [twiml.sms], a session update, a
    database call, [res.send] or [next(err)].  A property of the world
    that these steps keep holds after the synchronous run and after every
    callback. *)

Section Invariant.

Variable P : world -> Prop.
Hypothesis P_sms : forall m w, P w -> P (sms m w).
Hypothesis P_add_write : forall x w, P w -> P (add_write x w).
Hypothesis P_add_pending : forall o w, P w -> P (add_pending o w).
Hypothesis P_res_send : forall w, P w -> P (res_send w).
Hypothesis P_next_err : forall w, P w -> P (next_err w).
Hypothesis P_set_sess : forall f w,
  (forall s, session_wf s -> session_wf (f s)) -> P w -> P (set_sess f w).

Local Ltac inv_steps :=
  repeat first
    [ assumption
    | apply P_res_send | apply P_next_err | apply P_sms
    | apply P_add_write | apply P_add_pending
    | apply P_set_sess;
        [ intros ?; first
            [ apply session_wf_askedReminder_false | apply session_wf_askedQueued_false
            | apply session_wf_found | apply session_wf_offer ] | ] ].

Lemma inv_handleReminderResponse cfg From text m w w' :
  handleReminderResponse cfg From text m w = Some w' -> P w -> P w'.
Proof.
  unfold handleReminderResponse; intros E H.
  destruct (is_yes text); [destruct m as [src|]; [|discriminate] | destruct (is_no text)];
    injection E as <-; inv_steps.
Qed.

Lemma inv_run_op cfg db From text o w : P w -> P (run_op cfg db From text o w).
Proof.
  intros H; destruct o as [|q|]; unfold run_op.
  - destruct (findAskedQueued db From) as [|[|r [|r' l]]]; inv_steps.
    destruct (handleReminderResponse cfg From text (Some (SrcQueue r)) w) eqn:E; [|exact H].
    eapply inv_handleReminderResponse; eassumption.
  - cbv zeta; destruct (addQueued_fails db q); inv_steps.
  - destruct (findCitation db text) as [[|c [|c' l]]|]; try destruct (_ && _); inv_steps.
Qed.

Lemma inv_run_ops cfg db From text order w : P w -> P (run_ops cfg db From text order w).
Proof.
  unfold run_ops; revert w; induction order as [|o order IH]; intros w H; simpl.
  - exact H.
  - apply IH, inv_run_op, H.
Qed.

Lemma inv_sms_sync cfg From text s : P (init_world s) -> P (sms_sync cfg From text s).
Proof.
  intros H0; unfold sms_sync; cbv zeta.
  destruct (askedReminder s).
  - destruct (handleReminderResponse cfg From text (option_map SrcCase (match_ s)) (init_world s))
      as [w1|] eqn:E; [|inv_steps].
    assert (H1 : P w1) by (eapply inv_handleReminderResponse; eassumption).
    destruct (askedQueued (sess w1)), (is_yes text), (is_no text); inv_steps.
  - destruct (askedQueued (sess (add_pending FindAskedQueued (init_world s)))),
      (is_yes text), (is_no text); inv_steps.
Qed.

Lemma inv_sms_handler cfg db From Body s order :
  P (init_world s) -> P (sms_handler cfg db From Body s order).
Proof. intros H; apply inv_run_ops, inv_sms_sync, H. Qed.

End Invariant.

(** ** Well-formed sessions *)

Lemma world_wf_sms m w : world_wf w -> world_wf (sms m w).
Proof. intros H; exact H. Qed.

Lemma world_wf_add_write x w : world_wf w -> world_wf (add_write x w).
Proof. intros H; exact H. Qed.

Lemma world_wf_add_pending o w : world_wf w -> world_wf (add_pending o w).
Proof. intros H; exact H. Qed.

Lemma world_wf_send_reply r w : world_wf w -> world_wf (send_reply r w).
Proof.
  intros [H1 H2]; split; [exact H1|]; cbn.
  destruct (snap w) as [x|] eqn:E; intros y Hy; injection Hy as <-.
  - apply H2; reflexivity.
  - exact H1.
Qed.

Lemma world_wf_res_send w : world_wf w -> world_wf (res_send w).
Proof. apply world_wf_send_reply. Qed.

Lemma world_wf_next_err w : world_wf w -> world_wf (next_err w).
Proof. unfold next_err; destruct (sent w); [apply world_wf_send_reply | exact (fun H => H)]. Qed.

Lemma world_wf_set_sess f w :
  (forall s, session_wf s -> session_wf (f s)) -> world_wf w -> world_wf (set_sess f w).
Proof. intros Hf [H1 H2]; split; [apply Hf, H1 | exact H2]. Qed.

(** X1: a request started from a session whose [askedReminder] comes with
    a stored case and whose [askedQueued] comes with a stored citation
    leaves the client a session with the same pairing. *)
Theorem session_wf_preserved cfg db From Body s order :
  session_wf s -> session_wf (next_session s (sms_handler cfg db From Body s order)).
Proof.
  intros Hs.
  destruct (inv_sms_handler world_wf world_wf_sms world_wf_add_write world_wf_add_pending
              world_wf_res_send world_wf_next_err world_wf_set_sess cfg db From Body s order)
    as [_ H2].
  - split; [exact Hs | intros x Hx; discriminate Hx].
  - unfold next_session; destruct (snap _) as [x|] eqn:E; [apply H2; reflexivity | exact Hs].
Qed.

(** ** The 500 page is never sent after a reply *)

Lemma error_only_first_twiml l m : error_only_first l -> error_only_first (app l [Twiml m]).
Proof.
  unfold error_only_first; destruct l as [|r l]; simpl; intros H; [constructor|].
  apply Forall_app; split; [exact H | constructor; [discriminate | constructor]].
Qed.

Lemma error_only_first_next_err w :
  error_only_first (sent w) -> error_only_first (sent (next_err w)).
Proof.
  unfold next_err; intros H; destruct (sent w) as [|r l] eqn:E.
  - cbn; rewrite E; constructor.
  - rewrite E; exact H.
Qed.

Lemma error_only_first_nth l i :
  error_only_first l -> nth_error l i = Some ServerError -> i = 0.
Proof.
  unfold error_only_first; destruct l as [|r l], i as [|i]; simpl; intros H Hi;
    try reflexivity; try discriminate.
  apply nth_error_In in Hi; rewrite Forall_forall in H; destruct (H _ Hi eq_refl).
Qed.

(** X2: the error middleware's 500 page can only be the first response
    attempt of a request: it is never sent once a reply went out. *)
Theorem server_error_only_first cfg db From Body s order i :
  nth_error (sent (sms_handler cfg db From Body s order)) i = Some ServerError -> i = 0.
Proof.
  apply error_only_first_nth.
  apply (inv_sms_handler (fun w => error_only_first (sent w))); try (intros; assumption).
  - intros w H; apply error_only_first_twiml, H.
  - exact error_only_first_next_err.
  - constructor.
Qed.

(** ** The shared TwiML object *)

Lemma reply_extends_snoc r t m :
  reply_extends r (Twiml t) -> reply_extends r (Twiml (app t [m])).
Proof.
  destruct r as [a|]; simpl; [|trivial].
  intros [e ->]; exists (app e [m]); rewrite app_assoc; reflexivity.
Qed.

Lemma ForallOrdPairs_snoc {A} (R : A -> A -> Prop) l x :
  ForallOrdPairs R l -> Forall (fun y => R y x) l -> ForallOrdPairs R (app l [x]).
Proof.
  induction l as [|a l IH]; intros H1 H2; simpl.
  - repeat constructor.
  - inversion H1; subst; inversion H2; subst; constructor.
    + apply Forall_app; split; [assumption | constructor; [assumption | constructor]].
    + apply IH; assumption.
Qed.


Lemma chained_res_send w : replies_chained w -> replies_chained (res_send w).
Proof.
  intros [H1 H2]; split; cbn.
  - apply ForallOrdPairs_snoc; assumption.
  - apply Forall_app; split; [exact H2|].
    constructor; [exists []; rewrite app_nil_r; reflexivity | constructor].
Qed.

Lemma chained_next_err w : replies_chained w -> replies_chained (next_err w).
Proof.
  unfold next_err; intros [H1 H2]; destruct (sent w) as [|r l] eqn:E.
  - split; cbn; rewrite E; repeat constructor.
  - split; rewrite E; assumption.
Qed.

Lemma chained_sms m w : replies_chained w -> replies_chained (sms m w).
Proof.
  intros [H1 H2]; split; cbn; [exact H1|].
  apply Forall_impl with (2 := H2); intros r; apply reply_extends_snoc.
Qed.

(** X3: every TwiML reply of a request repeats the messages of each earlier
    TwiML reply of the same request, as a prefix. *)
Theorem replies_repeat_earlier_messages cfg db From Body s order :
  ForallOrdPairs reply_extends (sent (sms_handler cfg db From Body s order)).
Proof.
  apply (inv_sms_handler replies_chained); try (intros; assumption).
  - exact chained_sms.
  - exact chained_res_send.
  - exact chained_next_err.
  - split; constructor.
Qed.


(** ** What the request writes *)

Lemma allowed_run_op cfg db From text s o w :
  Forall (write_allowed db From text s) (writes w) ->
  Forall (write_allowed db From text s) (writes (run_op cfg db From text o w)).
Proof.
  intros H; destruct o as [|q|]; unfold run_op.
  - destruct (findAskedQueued db From) as [|[|r [|r' l]]] eqn:Ef; try exact H.
    + rewrite writes_next_err; exact H.
    + unfold handleReminderResponse.
      destruct (is_yes text) eqn:Hy; [|destruct (is_no text)]; cbn; try exact H.
      apply Forall_app; split; [exact H|].
      constructor; [|constructor].
      split; [exact Hy|]; cbn; split; [exact Ef | reflexivity].
  - cbv zeta; destruct (addQueued_fails db q); cbn; rewrite ?writes_next_err; exact H.
  - destruct (findCitation db text) as [[|c [|c' l]]|]; try destruct (_ && _); exact H.
Qed.

Lemma allowed_run_ops cfg db From text s order w :
  Forall (write_allowed db From text s) (writes w) ->
  Forall (write_allowed db From text s) (writes (run_ops cfg db From text order w)).
Proof.
  unfold run_ops; revert w; induction order as [|o order IH]; intros w H; simpl.
  - exact H.
  - apply IH, allowed_run_op, H.
Qed.

Lemma allowed_sms_sync cfg db From text s :
  Forall (write_allowed db From text s) (writes (sms_sync cfg From text s)).
Proof.
  unfold sms_sync, handleReminderResponse; cbv zeta.
  destruct (askedReminder s) eqn:Hr, (is_yes text) eqn:Hy, (is_no text) eqn:Hn,
    (match_ s) as [c|] eqn:Hm; cbn;
    destruct (askedQueued s) eqn:Hq; cbn;
    repeat constructor; repeat split; assumption.
Qed.

(** X5: every insert a request issues follows an affirmative answer: a
    reminder for the case stored in the session (while the reminder
    question is pending) or for the single asked-queue row of the sender,
    or a queued lookup for the citation stored in the session (while the
    queue question is pending). *)
Theorem writes_are_justified cfg db From Body s order :
  Forall (write_allowed db From (toUpperCase Body) s) (writes (sms_handler cfg db From Body s order)).
Proof. apply allowed_run_ops, allowed_sms_sync. Qed.

Lemma Permutation_filter_length {A} (f : A -> bool) l l' :
  Permutation l l' -> length (filter f l) = length (filter f l').
Proof.
  induction 1 as [|x l l' _ IH|x y l|l l' l'' _ IH1 _ IH2]; simpl.
  - reflexivity.
  - destruct (f x); simpl; congruence.
  - destruct (f x), (f y); reflexivity.
  - congruence.
Qed.

Lemma counts_run_op cfg db From text o w :
  count_reminders (writes (run_op cfg db From text o w)) <=
    count_reminders (writes w) + (if is_faq o then 1 else 0) /\
  count_queued (writes (run_op cfg db From text o w)) = count_queued (writes w).
Proof.
  unfold count_reminders, count_queued; destruct o as [|q|]; unfold run_op; cbn [is_faq].
  - destruct (findAskedQueued db From) as [|[|r [|r' l]]]; try (split; lia).
    + rewrite writes_next_err; split; lia.
    + unfold handleReminderResponse.
      destruct (is_yes text); [|destruct (is_no text)]; cbn; try (split; lia).
      rewrite !filter_app, !length_app; simpl; split; lia.
  - cbv zeta; destruct (addQueued_fails db q); cbn; rewrite ?writes_next_err; split; lia.
  - destruct (findCitation db text) as [[|c [|c' l]]|]; try destruct (_ && _); cbn; split; lia.
Qed.

Lemma counts_run_ops cfg db From text order w :
  count_reminders (writes (run_ops cfg db From text order w)) <=
    count_reminders (writes w) + length (filter is_faq order) /\
  count_queued (writes (run_ops cfg db From text order w)) = count_queued (writes w).
Proof.
  unfold run_ops; revert w; induction order as [|o order IH]; intros w; simpl.
  - split; lia.
  - destruct (IH (run_op cfg db From text o w)) as [H1 H2].
    destruct (counts_run_op cfg db From text o w) as [H3 H4].
    destruct (is_faq o); simpl in *; split; lia.
Qed.

Lemma counts_sms_sync cfg From text s :
  count_reminders (writes (sms_sync cfg From text s)) +
    length (filter is_faq (pending (sms_sync cfg From text s))) <= 1 /\
  count_queued (writes (sms_sync cfg From text s)) <= 1.
Proof.
  unfold sms_sync, handleReminderResponse; cbv zeta.
  destruct (askedReminder s), (is_yes text), (is_no text), (match_ s); cbn;
    destruct (askedQueued s); cbn; split; lia.
Qed.

(** X6: a request inserts at most one reminder and at most one queued
    lookup, whatever the order in which the database answers. *)
Theorem at_most_one_insert_each cfg db From Body s order :
  Permutation order (pending (sms_sync cfg From (toUpperCase Body) s)) ->
  count_reminders (writes (sms_handler cfg db From Body s order)) <= 1 /\
  count_queued (writes (sms_handler cfg db From Body s order)) <= 1.
Proof.
  intros Hp; unfold sms_handler; cbv zeta.
  destruct (counts_run_ops cfg db From (toUpperCase Body) order
              (sms_sync cfg From (toUpperCase Body) s)) as [H1 H2].
  destruct (counts_sms_sync cfg From (toUpperCase Body) s) as [H3 H4].
  rewrite (Permutation_filter_length is_faq _ _ Hp) in H1.
  split; lia.
Qed.

(** ** A failed citation lookup *)

Lemma run_op_lookup_error cfg db From text o w :
  run_op cfg (with_citation db text None) From text o w =
  run_op cfg (with_citation db text (Some [])) From text o w.
Proof.
  destruct o; try reflexivity.
  unfold run_op; cbn [findCitation with_citation]; rewrite jstr_eqb_refl; reflexivity.
Qed.

(** X7: when the citation lookup fails ([results] undefined), the request
    has the same outcome as when it finds no record: the failure is never
    reported as an error. *)
Theorem lookup_error_same_as_missing cfg db From Body s order :
  sms_handler cfg (with_citation db (toUpperCase Body) None) From Body s order =
  sms_handler cfg (with_citation db (toUpperCase Body) (Some [])) From Body s order.
Proof.
  unfold sms_handler, run_ops.
  generalize (sms_sync cfg From (toUpperCase Body) s) as w.
  induction order as [|o order IH]; intros w; simpl; [reflexivity|].
  rewrite run_op_lookup_error; apply IH.
Qed.


(** ** The query text of the route handler *)

Section QueryText.

Variables (cfg : config) (db : store) (From : string) (t : jstring) (s0 : session).

Lemma stores_query_refl : stores_query db t s0 s0.
Proof. split; left; reflexivity. Qed.

Lemma sq_askedReminder b x :
  stores_query db t s0 x -> stores_query db t s0 (set_askedReminder b x).
Proof. intros H; exact H. Qed.

Lemma sq_askedQueued b x :
  stores_query db t s0 x -> stores_query db t s0 (set_askedQueued b x).
Proof. intros H; exact H. Qed.

Lemma sq_found c x :
  unique_match (findCitation db t) = Some c -> stores_query db t s0 x ->
  stores_query db t s0 (set_askedReminder true (set_match (Some c) x)).
Proof. intros Hc [H1 _]; split; [exact H1 | right; exists c; split; [reflexivity | exact Hc]]. Qed.

Lemma sq_offer x :
  in_window t -> unique_match (findCitation db t) = None -> stores_query db t s0 x ->
  stores_query db t s0 (set_citationId (Some t) (set_askedQueued true x)).
Proof. intros Hw Hu [_ H2]; split; [right; split; [reflexivity | split; assumption] | exact H2]. Qed.

Lemma msg_checked_other m : m <> msg_not_found_1 -> m <> msg_bad_format -> msg_checked t m.
Proof. intros H1 H2; split; intros H; contradiction. Qed.

Lemma checked_reminder_1 : msg_checked t msg_reminder_1.
Proof. apply msg_checked_other; discriminate. Qed.

Lemma checked_reminder_2 : msg_checked t (msg_reminder_2 cfg).
Proof.
  apply msg_checked_other; unfold msg_reminder_2, msg_not_found_1, msg_bad_format;
    cbn [String.append]; discriminate.
Qed.

Lemma checked_opt_out : msg_checked t (msg_opt_out cfg).
Proof.
  apply msg_checked_other; unfold msg_opt_out, msg_not_found_1, msg_bad_format;
    cbn [String.append]; discriminate.
Qed.

Lemma checked_keep_checking : msg_checked t (msg_keep_checking cfg).
Proof.
  apply msg_checked_other; unfold msg_keep_checking, msg_not_found_1, msg_bad_format;
    cbn [String.append]; discriminate.
Qed.

Lemma checked_not_found_2 : msg_checked t (msg_not_found_2 cfg).
Proof.
  apply msg_checked_other; unfold msg_not_found_2, msg_not_found_1, msg_bad_format;
    cbn [String.append]; discriminate.
Qed.

Lemma checked_summary c : msg_checked t (case_summary cfg c).
Proof.
  apply msg_checked_other; unfold case_summary, msg_not_found_1, msg_bad_format;
    cbn [String.append]; discriminate.
Qed.

Lemma checked_not_found_1 : in_window t -> msg_checked t msg_not_found_1.
Proof. intros Hw; split; [intros _; exact Hw | discriminate]. Qed.

Lemma checked_bad_format : ~ in_window t -> msg_checked t msg_bad_format.
Proof. intros Hw; split; [discriminate | intros _; exact Hw]. Qed.

Lemma qi_init : query_inv db t s0 (init_world s0).
Proof.
  split; [apply stores_query_refl|].
  split; [intros x Hx; discriminate Hx | split; constructor].
Qed.

Lemma qi_sms m w : msg_checked t m -> query_inv db t s0 w -> query_inv db t s0 (sms m w).
Proof.
  intros Hm (H1 & H2 & H3 & H4).
  refine (conj H1 (conj H2 (conj _ H4))); cbn.
  apply Forall_app; split; [exact H3 | constructor; [exact Hm | constructor]].
Qed.

Lemma qi_add_write x w : query_inv db t s0 w -> query_inv db t s0 (add_write x w).
Proof. intros H; exact H. Qed.

Lemma qi_add_pending o w : query_inv db t s0 w -> query_inv db t s0 (add_pending o w).
Proof. intros H; exact H. Qed.

Lemma qi_send_reply r w :
  reply_checked t r -> query_inv db t s0 w -> query_inv db t s0 (send_reply r w).
Proof.
  intros Hr (H1 & H2 & H3 & H4).
  refine (conj H1 (conj _ (conj H3 _))); cbn.
  - destruct (snap w) as [x|] eqn:E; intros y Hy; injection Hy as <-.
    + apply H2; reflexivity.
    + exact H1.
  - apply Forall_app; split; [exact H4 | constructor; [exact Hr | constructor]].
Qed.

Lemma qi_res_send w : query_inv db t s0 w -> query_inv db t s0 (res_send w).
Proof. intros H; apply qi_send_reply; [exact (proj1 (proj2 (proj2 H))) | exact H]. Qed.

Lemma qi_next_err w : query_inv db t s0 w -> query_inv db t s0 (next_err w).
Proof.
  intros H; unfold next_err; destruct (sent w); [|exact H].
  apply qi_send_reply; [exact I | exact H].
Qed.

Lemma qi_set_sess f w :
  (forall x, stores_query db t s0 x -> stores_query db t s0 (f x)) ->
  query_inv db t s0 w -> query_inv db t s0 (set_sess f w).
Proof. intros Hf (H1 & H2 & H3 & H4); exact (conj (Hf _ H1) (conj H2 (conj H3 H4))). Qed.

Local Ltac qi_steps :=
  repeat first
    [ assumption
    | apply qi_res_send | apply qi_next_err
    | apply qi_sms;
        [ first [ apply checked_reminder_1 | apply checked_reminder_2 | apply checked_opt_out
                | apply checked_keep_checking ] | ]
    | apply qi_add_write | apply qi_add_pending
    | apply qi_set_sess;
        [ intros ? ?; first [ apply sq_askedReminder | apply sq_askedQueued ]; assumption | ] ].

Lemma qi_handleReminderResponse m w w' :
  handleReminderResponse cfg From t m w = Some w' ->
  query_inv db t s0 w -> query_inv db t s0 w'.
Proof.
  unfold handleReminderResponse; intros E H.
  destruct (is_yes t); [destruct m as [src|]; [|discriminate] | destruct (is_no t)];
    injection E as <-; qi_steps.
Qed.

Lemma qi_run_op o w : query_inv db t s0 w -> query_inv db t s0 (run_op cfg db From t o w).
Proof.
  intros H; destruct o as [|q|]; unfold run_op.
  - destruct (findAskedQueued db From) as [|[|r [|r' l]]]; qi_steps.
    destruct (handleReminderResponse cfg From t (Some (SrcQueue r)) w) eqn:E; [|exact H].
    eapply qi_handleReminderResponse; eassumption.
  - cbv zeta; destruct (addQueued_fails db q); qi_steps.
  - assert (Hw : (6 <=? length t) && (length t <=? 25) = true <-> in_window t)
      by (unfold in_window; rewrite andb_true_iff, !Nat.leb_le; tauto).
    destruct (findCitation db t) as [[|c [|c' l]]|] eqn:Ef;
      [ | apply qi_res_send, qi_set_sess;
          [ intros x Hx; cbv beta; apply sq_found; [rewrite Ef; reflexivity | exact Hx]
          | apply qi_sms; [apply checked_summary | exact H] ] | | ];
      (destruct (_ && _) eqn:E;
       [ apply qi_res_send, qi_set_sess;
           [ intros x Hx; cbv beta; apply sq_offer;
               [apply Hw; reflexivity | rewrite Ef; reflexivity | exact Hx]
           | apply qi_sms; [apply checked_not_found_2 |
               apply qi_sms; [apply checked_not_found_1, Hw; reflexivity | exact H]] ]
       | apply qi_res_send, qi_sms;
           [ apply checked_bad_format; intros Hin; apply Hw in Hin; discriminate Hin
           | exact H ] ]).
Qed.

Lemma qi_run_ops order w :
  query_inv db t s0 w -> query_inv db t s0 (run_ops cfg db From t order w).
Proof.
  unfold run_ops; revert w; induction order as [|o order IH]; intros w H; simpl.
  - exact H.
  - apply IH, qi_run_op, H.
Qed.

Lemma qi_sms_sync : query_inv db t s0 (sms_sync cfg From t s0).
Proof.
  pose proof qi_init as H0; unfold sms_sync; cbv zeta.
  destruct (askedReminder s0).
  - destruct (handleReminderResponse cfg From t (option_map SrcCase (match_ s0)) (init_world s0))
      as [w1|] eqn:E; [|qi_steps].
    assert (H1 : query_inv db t s0 w1) by (eapply qi_handleReminderResponse; eassumption).
    destruct (askedQueued (sess w1)), (is_yes t), (is_no t); qi_steps.
  - destruct (askedQueued (sess (add_pending FindAskedQueued (init_world s0)))),
      (is_yes t), (is_no t); qi_steps.
Qed.

End QueryText.

Lemma run_op_lookup_only cfg db From t o w :
  run_op cfg db From t o w = run_op cfg (lookup_only db t) From t o w.
Proof. destruct o; reflexivity. Qed.

(** C8 (amended): in the route handler, the text looked up, checked
    against the 6..25 window and stored is the raw body upper-cased by
    [toUpperCase], without trimming.  The handler's whole outcome is the
    one it has when the citation store answers every key as it answers
    that text; the queue offer is sent only for a text inside the window
    and the format error only for one outside it; the session keeps as
    citation only that text (inside the window, with no unique match)
    and as case only the unique record found for it. *)
Theorem query_text_is_uppercased_body cfg db From Body s order :
  sms_handler cfg db From Body s order =
    sms_handler cfg (lookup_only db (toUpperCase Body)) From Body s order /\
  Forall (reply_checked (toUpperCase Body)) (sent (sms_handler cfg db From Body s order)) /\
  stores_query db (toUpperCase Body) s (next_session s (sms_handler cfg db From Body s order)).
Proof.
  pose proof (qi_run_ops cfg db From (toUpperCase Body) s order _
                (qi_sms_sync cfg db From (toUpperCase Body) s)) as (H1 & H2 & H3 & H4).
  split; [|split].
  - clear H1 H2 H3 H4; unfold sms_handler, run_ops; cbv zeta.
    generalize (sms_sync cfg From (toUpperCase Body) s) as w.
    induction order as [|o order IH]; intros w; simpl; [reflexivity|].
    rewrite <- run_op_lookup_only; apply IH.
  - exact H4.
  - unfold next_session, sms_handler; cbv zeta.
    destruct (snap _) as [x|] eqn:E; [apply H2; reflexivity | apply stores_query_refl].
Qed.


(** ** The shape of [cleanupName]'s result *)

Lemma length_title_case m l : length (title_case m l) = length l.
Proof. rewrite <- (length_map is_space), title_case_spaces, length_map; reflexivity. Qed.

Lemma drop_spaces_nil_iff l :
  drop_spaces l = [] <-> (forall c, In c l -> is_space c = true).
Proof.
  induction l as [|c l IH]; simpl.
  - split; [intros _ c []|reflexivity].
  - destruct (is_space c) eqn:Hc; split.
    + intros H x [<-|Hx]; [exact Hc | apply IH; assumption].
    + intros H; apply IH; intros x Hx; apply H; right; exact Hx.
    + discriminate.
    + intros H; rewrite H in Hc by (left; reflexivity); discriminate.
Qed.


(** X10: [cleanupName] returns a string that [trim] leaves unchanged: it
    has no leading or trailing whitespace. *)
Theorem cleanupName_trimmed s : trim (cleanupName s) = cleanupName s.
Proof.
  unfold cleanupName, trim; rewrite !list_ascii_of_string_of_list_ascii, trim_title_case.
  reflexivity.
Qed.

(** X11: [cleanupName] gives the empty string exactly when its input is
    empty or whitespace only. *)
Theorem cleanupName_empty_iff s :
  cleanupName s = "" <-> (forall c, In c (list_ascii_of_string s) -> is_space c = true).
Proof.
  unfold cleanupName, trim; rewrite list_ascii_of_string_of_list_ascii.
  rewrite <- drop_spaces_nil_iff.
  set (l := list_ascii_of_string s).
  split.
  - intros H.
    assert (Ht : trim_list l = []).
    { destruct (trim_list l) as [|c u] eqn:E; [reflexivity|].
      destruct (title_case false (c :: u)) eqn:E2; [|discriminate H].
      apply (f_equal (@length ascii)) in E2; rewrite length_title_case in E2; discriminate E2. }
    pose proof (drop_spaces_starts l) as Hst.
    destruct (drop_spaces l) as [|c u] eqn:E; [reflexivity|].
    unfold trim_list in Ht; rewrite E in Ht; cbn [rev] in Ht.
    cbn in Hst; apply negb_true_iff in Hst.
    rewrite drop_spaces_snoc in Ht by exact Hst.
    rewrite rev_app_distr in Ht; discriminate Ht.
  - intros H; unfold trim_list; rewrite H; reflexivity.
Qed.


(** ** [format_time] and the seconds field *)

(** X12: the case summary's time ignores the seconds of an [HH:mm:ss]
    value: it is rendered as the [HH:mm] prefix would be, for hours 00 to
    23 and seconds 00 to 59, in every environment. *)
Theorem format_time_ignores_seconds env h1 h2 m1 m2 s1 s2 h m sec :
  two_digits h1 h2 = Some h -> h <= 23 -> two_digits m1 m2 = Some m ->
  two_digits s1 s2 = Some sec -> sec <= 59 ->
  format_time env (String h1 (String h2 (String ":" (String m1 (String m2
    (String ":" (String s1 (String s2 EmptyString)))))))) =
  format_time env (String h1 (String h2 (String ":" (String m1 (String m2 EmptyString))))).
Proof.
  intros Hh Hh23 Hm Hs Hs59.
  unfold format_time, moment_clock.
  cbn -[two_digits iso_local_minutes iso_valid].
  rewrite Hh, Hm, Hs.
  cbn -[iso_local_minutes iso_valid].
  assert (Hv : forall z, iso_valid (mkIsoTime h m sec z ZoneLocal) =
                         iso_valid (mkIsoTime h m 0 z ZoneLocal)).
  { intros z; unfold iso_valid; cbn [iso_h iso_m iso_s iso_ms_zero].
    rewrite (proj2 (Nat.leb_le sec 59) Hs59).
    replace (h =? 24) with false by (symmetry; apply Nat.eqb_neq; lia).
    reflexivity. }
  rewrite Hv; reflexivity.
Qed.


(** ** The [/sms] route *)

(** [questionAskedMiddleware] never calls [next]: the route leaves the
    request as it started, whatever the body, the session and the
    database. *)
Lemma sms_route_world cfg db From Body s order :
  fst (sms_route cfg db From Body s order) = init_world s.
Proof. reflexivity. Qed.

(** The middleware's callback receives [null] as [data] when the lookup
    succeeds, and throws a [TypeError] at [data.length]; when the lookup
    fails it gets the error object and does nothing. *)
Lemma sms_route_callback cfg db From Body s order :
  snd (sms_route cfg db From Body s order) =
  match findAskedQueued db From with DbErr => Normal | DbOk _ => ThrowTypeError end.
Proof.
  unfold sms_route, questionAskedMiddleware; cbn.
  destruct (findAskedQueued db From); reflexivity.
Qed.

(** C2: while the queue or the reminder question is pending, a message
    that is neither affirmative nor negative gets no reply, and the
    session and the store are left as they were. *)
Theorem unrecognized_answer_no_reply cfg db From Body s order :
  askedQueued s = true \/ askedReminder s = true ->
  is_yes (toUpperCase Body) = false -> is_no (toUpperCase Body) = false ->
  sent (fst (sms_route cfg db From Body s order)) = [] /\
  next_session s (fst (sms_route cfg db From Body s order)) = s /\
  writes (fst (sms_route cfg db From Body s order)) = [].
Proof. intros _ _ _; rewrite sms_route_world; repeat split. Qed.

(** C1 does not hold of the route: [abc123] (six characters, no record
    found, no question pending) gets no reply and the session is not
    moved to the queue question; the middleware's callback throws a
    [TypeError].  The route handler, which is never reached, sends the
    two-part offer and stores the citation. *)
Theorem not_found_no_offer order :
  sent (fst (sms_route sample_cfg store_empty sample_phone "abc123" empty_session order)) = [] /\
  next_session empty_session
    (fst (sms_route sample_cfg store_empty sample_phone "abc123" empty_session order))
    = empty_session /\
  snd (sms_route sample_cfg store_empty sample_phone "abc123" empty_session order)
    = ThrowTypeError /\
  sent (sms_handler sample_cfg store_empty sample_phone "abc123" empty_session
          [FindAskedQueued; FindCitation])
    = [Twiml [msg_not_found_1; msg_not_found_2 sample_cfg]] /\
  citationId (next_session empty_session
    (sms_handler sample_cfg store_empty sample_phone "abc123" empty_session
       [FindAskedQueued; FindCitation])) = Some (jstr "ABC123").
Proof.
  rewrite sms_route_callback, !sms_route_world.
  vm_compute; repeat split.
Qed.

(** C3 does not hold of the route: from the reminder question, a first
    [yes] inserts no reminder and leaves [askedReminder] set in the
    client's session, so the second [yes] still finds the question
    pending; it inserts nothing either, and neither gets a reply.  The
    route handler, which is never reached, inserts the reminder on the
    first [yes]. *)
Theorem double_yes_still_pending order1 order2 :
  writes (fst (sms_route sample_cfg store_empty sample_phone "yes" reminder_session order1)) = [] /\
  askedReminder (next_session reminder_session
    (fst (sms_route sample_cfg store_empty sample_phone "yes" reminder_session order1))) = true /\
  writes (fst (sms_route sample_cfg store_empty sample_phone "yes"
    (next_session reminder_session
      (fst (sms_route sample_cfg store_empty sample_phone "yes" reminder_session order1)))
    order2)) = [] /\
  sent (fst (sms_route sample_cfg store_empty sample_phone "yes" reminder_session order1)) = [] /\
  count_reminders (writes (sms_handler sample_cfg store_empty sample_phone "yes"
    reminder_session [FindCitation])) = 1.
Proof.
  rewrite !sms_route_world.
  vm_compute; repeat split.
Qed.

(** C4 does not hold of the route: with one asked queued row stored for
    the sender and no session, [yes] inserts nothing and gets no reply;
    the middleware's one-parameter callback receives the [null] error
    argument and throws a [TypeError] before looking at the row.  Called
    with the rows as its argument, it would throw a [ReferenceError] at
    [handleReminderResponse], which is not in its scope. *)
Theorem asked_row_not_answered order :
  writes (fst (sms_route sample_cfg store_asked_row sample_phone "yes" empty_session order)) = [] /\
  sent (fst (sms_route sample_cfg store_asked_row sample_phone "yes" empty_session order)) = [] /\
  snd (sms_route sample_cfg store_asked_row sample_phone "yes" empty_session order)
    = ThrowTypeError /\
  questionAskedMiddleware_callback [JsArray [sample_row]] = ThrowReferenceError.
Proof.
  rewrite sms_route_callback, !sms_route_world.
  vm_compute; repeat split.
Qed.

(** C5 does not hold of the route: [123] gets no reply (the session does
    stay as it was).  The route handler, which is never reached, sends the
    format error. *)
Theorem malformed_citation_no_reply order :
  sent (fst (sms_route sample_cfg store_empty sample_phone "123" empty_session order)) = [] /\
  next_session empty_session
    (fst (sms_route sample_cfg store_empty sample_phone "123" empty_session order))
    = empty_session /\
  sent (sms_handler sample_cfg store_empty sample_phone "123" empty_session
          [FindAskedQueued; FindCitation]) = [Twiml [msg_bad_format]].
Proof.
  rewrite !sms_route_world.
  vm_compute; repeat split.
Qed.

(** C6 does not hold of the route: [z-9], a unique match, gets no case
    summary and the session does not get the case.  The route handler,
    which is never reached, sends the summary, which renders the sample
    record as the claim says. *)
Theorem unique_match_no_summary order :
  sent (fst (sms_route sample_cfg store_z9 sample_phone "z-9" empty_session order)) = [] /\
  next_session empty_session
    (fst (sms_route sample_cfg store_z9 sample_phone "z-9" empty_session order))
    = empty_session /\
  sent (sms_handler sample_cfg store_z9 sample_phone "z-9" empty_session
          [FindAskedQueued; FindCitation]) = [Twiml [case_summary sample_cfg sample_case]] /\
  case_summary sample_cfg sample_case =
    "Found a case for John Q Public scheduled on Mon, Mar 4th at 2:30 PM, at 101. Would you like a courtesy reminder the day before? (reply YES or NO)".
Proof.
  rewrite !sms_route_world.
  vm_compute; repeat split.
Qed.

(** C9 does not hold of the route: [yes] to the pending reminder question
    gets no reply attempt at all.  The route handler, which is never
    reached, makes two. *)
Theorem reminder_answer_no_attempt order :
  sent (fst (sms_route sample_cfg store_empty sample_phone "yes" reminder_session order)) = [] /\
  writes (fst (sms_route sample_cfg store_empty sample_phone "yes" reminder_session order)) = [] /\
  length (sent (sms_handler sample_cfg store_empty sample_phone "yes" reminder_session
                  [FindCitation])) = 2.
Proof.
  rewrite !sms_route_world.
  vm_compute; repeat split.
Qed.


(** * Witnesses and counterexamples on the sample inputs *)

Lemma unrecognized_answer_no_reply_witness :
  sent (fst (sms_route sample_cfg store_empty sample_phone "maybe" queue_session [])) = [] /\
  next_session queue_session
    (fst (sms_route sample_cfg store_empty sample_phone "maybe" queue_session [])) = queue_session /\
  writes (fst (sms_route sample_cfg store_empty sample_phone "maybe" queue_session [])) = [].
Proof.
  apply (unrecognized_answer_no_reply sample_cfg store_empty sample_phone "maybe" queue_session []).
  - left; reflexivity.
  - vm_compute; reflexivity.
  - vm_compute; reflexivity.
Defined.

Lemma ambiguous_same_as_missing_witness :
  sms_handler sample_cfg
    (with_citation store_empty (toUpperCase "abc123") (Some [sample_case; sample_case]))
    sample_phone "abc123" empty_session [FindAskedQueued; FindCitation] =
  sms_handler sample_cfg (with_citation store_empty (toUpperCase "abc123") (Some []))
    sample_phone "abc123" empty_session [FindAskedQueued; FindCitation].
Proof.
  apply (ambiguous_same_as_missing sample_cfg store_empty sample_phone "abc123"
           empty_session [FindAskedQueued; FindCitation] [sample_case; sample_case]).
  vm_compute; lia.
Defined.

(** C8 fails as stated: the body is not trimmed.  [abc12 ] trims to five
    characters, outside the window, but is offered the queue and stored
    with its trailing space. *)
Lemma query_text_counterexample :
  length (toUpperCase (trim "abc12 ")) = 5 /\
  sent (sms_handler sample_cfg store_empty sample_phone "abc12 " empty_session
          [FindAskedQueued; FindCitation])
  = [Twiml [msg_not_found_1; msg_not_found_2 sample_cfg]] /\
  citationId (next_session empty_session
    (sms_handler sample_cfg store_empty sample_phone "abc12 " empty_session
       [FindAskedQueued; FindCitation])) = Some (jstr "ABC12 ").
Proof. vm_compute; repeat split. Qed.

Lemma session_wf_preserved_witness :
  session_wf (next_session reminder_session
    (sms_handler sample_cfg store_z9 sample_phone "z-9" reminder_session [FindCitation])).
Proof.
  apply (session_wf_preserved sample_cfg store_z9 sample_phone "z-9" reminder_session
           [FindCitation]).
  vm_compute; split; [intros _; discriminate | intros H; discriminate H].
Defined.

Lemma server_error_only_first_witness :
  nth_error (sent (sms_handler sample_cfg store_queue_down sample_phone "z-9" empty_session
                     [FindAskedQueued; FindCitation])) 0 = Some ServerError /\ 0 = 0.
Proof.
  split; [vm_compute; reflexivity|].
  apply (server_error_only_first sample_cfg store_queue_down sample_phone "z-9" empty_session
           [FindAskedQueued; FindCitation] 0).
  vm_compute; reflexivity.
Defined.

Lemma at_most_one_insert_each_witness :
  count_reminders (writes (sms_handler sample_cfg store_z9 sample_phone "yes"
    both_questions_session
    [FindCitation; AddQueued (mkQueuedReq (Some (jstr "ABC123")) sample_phone)])) <= 1 /\
  count_queued (writes (sms_handler sample_cfg store_z9 sample_phone "yes"
    both_questions_session
    [FindCitation; AddQueued (mkQueuedReq (Some (jstr "ABC123")) sample_phone)])) <= 1.
Proof.
  apply (at_most_one_insert_each sample_cfg store_z9 sample_phone "yes" both_questions_session
           [FindCitation; AddQueued (mkQueuedReq (Some (jstr "ABC123")) sample_phone)]).
  vm_compute; apply perm_swap.
Defined.

Lemma format_time_ignores_seconds_witness :
  format_time sample_clock "14:30:45" = format_time sample_clock "14:30".
Proof.
  apply (format_time_ignores_seconds sample_clock "1"%char "4"%char "3"%char "0"%char
           "4"%char "5"%char 14 30 45);
    [reflexivity | lia | reflexivity | reflexivity | lia].
Defined.
